(** * Community roles: the [Role] value and the [RoleRegistry]

    A shallow embedding of [invenio_communities/roles.py] and the
    properties its design document states about it.

    Python values are kept at the types the dataclass annotates
    ([str], [list] of role names, [bool]); exceptions are explicit
    results; the insertion-ordered [dict] is an association list whose
    update keeps the position of a key already present. *)

From Stdlib Require Import String List Bool ZArith Lia Permutation.
Import ListNotations.
Open Scope string_scope.
Open Scope list_scope.

(** ** Exceptions and results *)

(** The exceptions this module can raise: [TypeError] from the call
    [Role(name=name, **data)], [AssertionError] from the two [assert]
    statements of [RoleRegistry.__init__], [KeyError] from
    [self._roles[key]]. *)
Inductive exn : Type :=
| TypeError
| AssertionError
| KeyError.

Inductive outcome (A : Type) : Type :=
| Ok (a : A)
| Raise (e : exn).

Arguments Ok {A} a.
Arguments Raise {A} e.

Definition bind {A B : Type} (c : outcome A) (k : A -> outcome B) : outcome B :=
  match c with
  | Ok a => k a
  | Raise e => Raise e
  end.

Notation "x <- c ;; k" := (bind c (fun x => k))
  (at level 61, c at next level, right associativity).

(** ** Insertion-ordered dictionaries with string keys *)

Definition dict (V : Type) : Type := list (string * V).

Section Dict.
Variable V : Type.

(** [key in d] *)
Fixpoint dict_contains (d : dict V) (key : string) : bool :=
  match d with
  | [] => false
  | (k, _) :: d' => if k =? key then true else dict_contains d' key
  end.

(** [d[key]], [None] standing for the [KeyError]. *)
Fixpoint dict_get (d : dict V) (key : string) : option V :=
  match d with
  | [] => None
  | (k, v) :: d' => if k =? key then Some v else dict_get d' key
  end.

(** [d[key] = v]: a key already present keeps its position and takes
    the new value, a new key goes to the end. *)
Fixpoint dict_set (d : dict V) (key : string) (v : V) : dict V :=
  match d with
  | [] => [(key, v)]
  | (k, w) :: d' =>
      if k =? key then (k, v) :: d' else (k, w) :: dict_set d' key v
  end.

Definition dict_keys (d : dict V) : list string := map fst d.
Definition dict_values (d : dict V) : list V := map snd d.
End Dict.

Arguments dict_contains {V} d key.
Arguments dict_get {V} d key.
Arguments dict_set {V} d key v.
Arguments dict_keys {V} d.
Arguments dict_values {V} d.

(** ** Role *)

(** [@dataclass(frozen=True) class Role]: five fields, no mutator. *)
Record Role : Type := mkRole {
  name : string;
  title : string;
  description : string;
  can_manage_roles : list string;
  is_owner : bool
}.

(** [x in l] on a Python list: the first element equal to [x] decides. *)
Fixpoint list_contains (x : string) (l : list string) : bool :=
  match l with
  | [] => false
  | y :: l' => if y =? x then true else list_contains x l'
  end.

(** [Role.can_manage]: [role_name in self.can_manage_roles]. *)
Definition can_manage (self : Role) (role_name : string) : bool :=
  list_contains role_name (can_manage_roles self).

(** [==] on two lists of strings. *)
Fixpoint list_eqb (l1 l2 : list string) : bool :=
  match l1, l2 with
  | [], [] => true
  | x :: l1', y :: l2' => (x =? y) && list_eqb l1' l2'
  | _, _ => false
  end.

(** The [__eq__] that [@dataclass] generates (the class defines none of
    its own): the tuples of all five fields are compared. *)
Definition Role_eq (self other : Role) : bool :=
  (name self =? name other)
  && (title self =? title other)
  && (description self =? description other)
  && list_eqb (can_manage_roles self) (can_manage_roles other)
  && Bool.eqb (is_owner self) (is_owner other).

Section Hash.
(** [str.__hash__]: some function of the string's characters, fixed
    for the life of the interpreter. *)
Variable str_hash : string -> Z.

(** [Role.__hash__]: [self.name.__hash__()]. *)
Definition Role_hash (self : Role) : Z := str_hash (name self).
End Hash.

(** ** Building a Role from a configuration record *)

(** The values a configuration record holds: a string, a list of role
    names, or a boolean. *)
Inductive value : Type :=
| VStr (s : string)
| VList (l : list string)
| VBool (b : bool).

(** [data] in [Role(name=name, **data)]: keyword to value. *)
Definition kwargs : Type := dict value.

(** The keyword parameters of the generated [__init__] that [**data]
    may still bind; [name] is already bound by [name=name]. *)
Definition field_names : list string :=
  ["title"; "description"; "can_manage_roles"; "is_owner"].

(** Binding one keyword of [**data]. A keyword that is no parameter of
    [__init__], and [name], which the call has already given, end the
    call with [TypeError]. The fields are kept at their annotated
    types, so a value of another Python type has no image in [Role];
    such a record lies outside the embedding and is refused here too. *)
Definition set_field (r : Role) (key : string) (v : value) : outcome Role :=
  if key =? "title" then
    match v with
    | VStr s =>
        Ok (mkRole (name r) s (description r) (can_manage_roles r) (is_owner r))
    | _ => Raise TypeError
    end
  else if key =? "description" then
    match v with
    | VStr s =>
        Ok (mkRole (name r) (title r) s (can_manage_roles r) (is_owner r))
    | _ => Raise TypeError
    end
  else if key =? "can_manage_roles" then
    match v with
    | VList l =>
        Ok (mkRole (name r) (title r) (description r) l (is_owner r))
    | _ => Raise TypeError
    end
  else if key =? "is_owner" then
    match v with
    | VBool b =>
        Ok (mkRole (name r) (title r) (description r) (can_manage_roles r) b)
    | _ => Raise TypeError
    end
  else Raise TypeError.

Fixpoint bind_kwargs (r : Role) (data : kwargs) : outcome Role :=
  match data with
  | [] => Ok r
  | (key, v) :: data' => r' <- set_field r key v ;; bind_kwargs r' data'
  end.

(** [Role(name=name, **data)]: the defaults of the dataclass
    ([''], [''], [[]], [False]), then the keywords of [data]. *)
Definition Role_init (name : string) (data : kwargs) : outcome Role :=
  bind_kwargs (mkRole name "" "" [] false) data.

(** ** RoleRegistry *)

Record RoleRegistry : Type := mkRoleRegistry {
  _roles : dict Role;
  _owner : option Role
}.

(** The dict comprehension of [__init__]:
    [{name: Role(name=name, **data) for (name, data) in items}]. *)
Fixpoint build_roles (items : list (string * kwargs)) (acc : dict Role)
  : outcome (dict Role) :=
  match items with
  | [] => Ok acc
  | (name, data) :: items' =>
      r <- Role_init name data ;;
      build_roles items' (dict_set acc name r)
  end.

(** The loop over [self._roles.values()]: [owner] is [self._owner],
    and the [assert] inside the loop raises when a second owner role
    turns up. *)
Fixpoint scan_owner (rs : list Role) (owner : option Role)
  : outcome (option Role) :=
  match rs with
  | [] => Ok owner
  | r :: rs' =>
      if is_owner r then
        match owner with
        | None => scan_owner rs' (Some r)
        | Some _ => Raise AssertionError
        end
      else scan_owner rs' owner
  end.

(** [RoleRegistry.__init__], its [assert] statements executed (the
    interpreter not run with [-O]). *)
Definition RoleRegistry_init (roles_definitions : dict kwargs)
  : outcome RoleRegistry :=
  roles <- build_roles roles_definitions [] ;;
  owner <- scan_owner (dict_values roles) None ;;
  match owner with
  | None => Raise AssertionError
  | Some _ => Ok (mkRoleRegistry roles owner)
  end.

(** [RoleRegistry.__contains__]. *)
Definition contains (self : RoleRegistry) (key : string) : bool :=
  dict_contains (_roles self) key.

(** [RoleRegistry.__getitem__]. *)
Definition getitem (self : RoleRegistry) (key : string) : outcome Role :=
  match dict_get (_roles self) key with
  | Some r => Ok r
  | None => Raise KeyError
  end.

(** [RoleRegistry.roles]: [self._roles.values()]. *)
Definition roles (self : RoleRegistry) : list Role :=
  dict_values (_roles self).

(** [RoleRegistry.owner_role]. *)
Definition owner_role (self : RoleRegistry) : option Role :=
  _owner self.

(** The loop of [manager_roles]: [allowed_roles.append(role)] for each
    role that can manage [role_name]. *)
Fixpoint manager_roles_loop (rs : list Role) (role_name : string)
  (allowed_roles : list Role) : list Role :=
  match rs with
  | [] => allowed_roles
  | role :: rs' =>
      if can_manage role role_name
      then manager_roles_loop rs' role_name (allowed_roles ++ [role])
      else manager_roles_loop rs' role_name allowed_roles
  end.

(** [RoleRegistry.manager_roles]. *)
Definition manager_roles (self : RoleRegistry) (role_name : string)
  : list Role :=
  manager_roles_loop (roles self) role_name [].

(** [RoleRegistry.__iter__]: [iter(self.roles)], as the sequence of
    roles the iterator yields. *)
Definition iter (self : RoleRegistry) : list Role :=
  roles self.

(** ** Configuration records with the declared fields only *)

(** A record of the configuration mapping as the design types it: each
    of the four fields is given or left to the default of the
    dataclass. *)
Record role_definition : Type := mkDefinition {
  def_title : option string;
  def_description : option string;
  def_can_manage_roles : option (list string);
  def_is_owner : option bool
}.

Definition keyword {A : Type} (key : string) (inj : A -> value)
  (o : option A) : kwargs :=
  match o with
  | Some a => [(key, inj a)]
  | None => []
  end.

(** The Python dict such a record is. *)
Definition kwargs_of (d : role_definition) : kwargs :=
  keyword "title" VStr (def_title d)
  ++ keyword "description" VStr (def_description d)
  ++ keyword "can_manage_roles" VList (def_can_manage_roles d)
  ++ keyword "is_owner" VBool (def_is_owner d).

Definition definitions_of (defs : dict role_definition) : dict kwargs :=
  map (fun e => (fst e, kwargs_of (snd e))) defs.

(** The record says [is_owner: True]. *)
Definition def_owner (d : role_definition) : bool :=
  match def_is_owner d with
  | Some true => true
  | _ => false
  end.

(** The role names a record lists under [can_manage_roles]. *)
Definition def_managed (d : role_definition) : list string :=
  match def_can_manage_roles d with
  | Some l => l
  | None => []
  end.

Definition owner_entries (defs : dict role_definition)
  : dict role_definition :=
  filter (fun e => def_owner (snd e)) defs.

(** The role the dataclass builds from such a record: the fields given,
    the defaults for the others. *)
Definition built_role (name : string) (d : role_definition) : Role :=
  mkRole name
    (match def_title d with Some s => s | None => "" end)
    (match def_description d with Some s => s | None => "" end)
    (def_managed d)
    (match def_is_owner d with Some b => b | None => false end).

Definition built_roles (defs : dict role_definition) : dict Role :=
  map (fun e => (fst e, built_role (fst e) (snd e))) defs.

(** How many of the built roles are owner roles. *)
Definition count_owners (rs : list Role) : nat :=
  length (filter is_owner rs).

(** ** The scenario of the design document *)

Definition scenario : dict kwargs :=
  [ ("reader", []);
    ("curator", [("can_manage_roles", VList ["reader"])]);
    ("manager", [("can_manage_roles", VList ["reader"; "curator"])]);
    ("owner",
      [("can_manage_roles", VList ["reader"; "curator"; "manager"; "owner"]);
       ("is_owner", VBool true)]) ].

Definition scenario_reader : Role := mkRole "reader" "" "" [] false.
Definition scenario_curator : Role :=
  mkRole "curator" "" "" ["reader"] false.
Definition scenario_manager : Role :=
  mkRole "manager" "" "" ["reader"; "curator"] false.
Definition scenario_owner : Role :=
  mkRole "owner" "" "" ["reader"; "curator"; "manager"; "owner"] true.

(** The same scenario with the records keyed [can_manage], the name
    the design document's interface section gives the field. *)
Definition scenario_can_manage : dict kwargs :=
  [ ("reader", []);
    ("curator", [("can_manage", VList ["reader"])]);
    ("manager", [("can_manage", VList ["reader"; "curator"])]);
    ("owner",
      [("can_manage", VList ["reader"; "curator"; "manager"; "owner"]);
       ("is_owner", VBool true)]) ].

(** A mapping with the declared fields: two roles, one owner. *)
Definition reader_and_owner : dict role_definition :=
  [ ("reader", mkDefinition (Some "Reader") None None None);
    ("owner",
      mkDefinition (Some "Owner") (Some "Can manage everything")
        (Some ["reader"; "owner"]) (Some true)) ].

(** A mapping whose owner lists [ghost], a name that is no key of it. *)
Definition dangling : dict role_definition :=
  [ ("reader", mkDefinition None None None (Some false));
    ("owner", mkDefinition None None (Some ["reader"; "ghost"]) (Some true)) ].

(** Each key of the dict names the role stored under it. *)
Definition keyed_by_name (d : dict Role) : Prop :=
  forall k r, In (k, r) d -> name r = k.

(** The registry the scenario builds. *)
Definition scenario_registry : RoleRegistry :=
  mkRoleRegistry
    [ ("reader", scenario_reader); ("curator", scenario_curator);
      ("manager", scenario_manager); ("owner", scenario_owner) ]
    (Some scenario_owner).

(** * Properties *)

(** ** Dictionaries *)

Lemma dict_contains_get {V : Type} (d : dict V) (key : string) :
  dict_contains d key = true <-> exists v, dict_get d key = Some v.
Proof.
  induction d as [|[k w] d IH]; simpl.
  - split; [discriminate | intros [v Hv]; discriminate].
  - destruct (k =? key); [split; eauto | exact IH].
Qed.

Lemma dict_get_none {V : Type} (d : dict V) (key : string) :
  dict_contains d key = false -> dict_get d key = None.
Proof.
  induction d as [|[k w] d IH]; simpl; trivial.
  destruct (k =? key); [discriminate | exact IH].
Qed.

Lemma dict_get_in {V : Type} (d : dict V) (key : string) (v : V) :
  dict_get d key = Some v -> In (key, v) d.
Proof.
  induction d as [|[k w] d IH]; simpl; [discriminate|].
  case_eq (k =? key); intros E H.
  - apply String.eqb_eq in E. left. congruence.
  - right. auto.
Qed.

Lemma dict_contains_keys {V : Type} (d : dict V) (key : string) :
  dict_contains d key = true <-> In key (dict_keys d).
Proof.
  induction d as [|[k w] d IH]; simpl.
  - split; [discriminate | tauto].
  - case_eq (k =? key); intros E.
    + apply String.eqb_eq in E. tauto.
    + apply String.eqb_neq in E. rewrite IH. tauto.
Qed.

Lemma dict_set_fresh {V : Type} (d : dict V) (key : string) (v : V) :
  ~ In key (dict_keys d) -> dict_set d key v = d ++ [(key, v)].
Proof.
  induction d as [|[k w] d IH]; simpl; intros H; trivial.
  case_eq (k =? key); intros E.
  - apply String.eqb_eq in E. tauto.
  - f_equal. apply IH. tauto.
Qed.

(** ** Role *)

Lemma list_contains_In (x : string) (l : list string) :
  list_contains x l = true <-> In x l.
Proof.
  induction l as [|y l IH]; simpl.
  - split; [discriminate | tauto].
  - case_eq (y =? x); intros E.
    + apply String.eqb_eq in E. tauto.
    + apply String.eqb_neq in E. rewrite IH. tauto.
Qed.

Lemma list_eqb_eq (l1 l2 : list string) :
  list_eqb l1 l2 = true <-> l1 = l2.
Proof.
  revert l2.
  induction l1 as [|x l1 IH]; intros [|y l2]; simpl;
    try (split; [discriminate | discriminate]);
    try tauto.
  rewrite andb_true_iff, String.eqb_eq, IH.
  split; [intros [-> ->]; reflexivity | intros H; injection H; auto].
Qed.

(** C5. [can_manage] answers true exactly for the names listed in the
    role's [can_manage_roles]; it is a total function to [bool], so any
    other name, registered or not, gets false. *)
Theorem can_manage_iff_listed (r : Role) (n : string) :
  can_manage r n = true <-> In n (can_manage_roles r).
Proof.
  unfold can_manage. apply list_contains_In.
Qed.

(** C6, as the code has it. Two roles of one name hash to the same
    value whatever their other fields; they compare equal exactly when
    the other four fields agree too. *)
Theorem Role_hash_by_name_eq_by_fields
  (str_hash : string -> Z) (n t1 d1 t2 d2 : string)
  (c1 c2 : list string) (o1 o2 : bool) :
  Role_hash str_hash (mkRole n t1 d1 c1 o1)
    = Role_hash str_hash (mkRole n t2 d2 c2 o2)
  /\ (Role_eq (mkRole n t1 d1 c1 o1) (mkRole n t2 d2 c2 o2) = true
      <-> t1 = t2 /\ d1 = d2 /\ c1 = c2 /\ o1 = o2).
Proof.
  split; [reflexivity|].
  unfold Role_eq; simpl.
  rewrite !andb_true_iff, !String.eqb_eq, list_eqb_eq, Bool.eqb_true_iff.
  tauto.
Qed.

(** C6, as stated, fails: same name, different title, not equal. *)
Lemma Role_eq_same_name_other_title :
  name (mkRole "curator" "Curator" "" [] false)
    = name (mkRole "curator" "Editor" "" [] false)
  /\ Role_eq (mkRole "curator" "Curator" "" [] false)
             (mkRole "curator" "Editor" "" [] false) = false.
Proof.
  split; reflexivity.
Qed.

(** ** Queries on a registry *)

Lemma manager_roles_loop_filter (rs : list Role) (n : string) :
  forall acc,
    manager_roles_loop rs n acc
    = acc ++ filter (fun r => can_manage r n) rs.
Proof.
  induction rs as [|r rs IH]; intros acc; simpl.
  - symmetry. apply app_nil_r.
  - destruct (can_manage r n); rewrite IH; trivial.
    rewrite <- app_assoc. reflexivity.
Qed.

(** C1. [manager_roles] is the one pass over [roles] that keeps, in
    order, the roles able to manage the queried name; it is a total
    function to a list. *)
Theorem manager_roles_is_filter (reg : RoleRegistry) (n : string) :
  manager_roles reg n = filter (fun r => can_manage r n) (roles reg).
Proof.
  unfold manager_roles. apply manager_roles_loop_filter.
Qed.

(** C4. [key in registry] holds exactly when [registry[key]] returns;
    a key that is absent raises [KeyError], and a role returned is the
    one stored under that key. *)
Theorem contains_iff_getitem (reg : RoleRegistry) (n : string) :
  (contains reg n = true <-> exists r, getitem reg n = Ok r)
  /\ (contains reg n = false -> getitem reg n = Raise KeyError)
  /\ (forall r, getitem reg n = Ok r -> In (n, r) (_roles reg)).
Proof.
  unfold contains, getitem. repeat split.
  - intros H. apply dict_contains_get in H. destruct H as [v ->]. eauto.
  - intros [r H]. apply dict_contains_get.
    destruct (dict_get (_roles reg) n); [eauto | discriminate].
  - intros H. now rewrite (dict_get_none _ _ H).
  - intros r H. apply dict_get_in.
    destruct (dict_get (_roles reg) n); congruence.
Qed.

(** ** Building roles *)

Ltac split_key k s :=
  let E := fresh "E" in
  case_eq (k =? s); intros E;
  [apply String.eqb_eq in E; subst k | apply String.eqb_neq in E].

Lemma set_field_raises (r : Role) (key : string) (v : value) (e : exn) :
  set_field r key v = Raise e -> e = TypeError.
Proof.
  unfold set_field.
  destruct (key =? "title"), (key =? "description"),
    (key =? "can_manage_roles"), (key =? "is_owner"), v;
    congruence.
Qed.

Lemma set_field_name (r r' : Role) (key : string) (v : value) :
  set_field r key v = Ok r' -> name r' = name r.
Proof.
  unfold set_field.
  destruct (key =? "title"), (key =? "description"),
    (key =? "can_manage_roles"), (key =? "is_owner"), v;
    intros H; try discriminate; injection H as <-; reflexivity.
Qed.

Lemma set_field_unexpected (r : Role) (key : string) (v : value) :
  ~ In key field_names -> set_field r key v = Raise TypeError.
Proof.
  unfold field_names, set_field; simpl; intros H.
  split_key key "title"; [tauto|].
  split_key key "description"; [tauto|].
  split_key key "can_manage_roles"; [tauto|].
  split_key key "is_owner"; [tauto|].
  reflexivity.
Qed.

Lemma bind_kwargs_raises (data : kwargs) :
  forall r e, bind_kwargs r data = Raise e -> e = TypeError.
Proof.
  induction data as [|[k v] data IH]; simpl; intros r e; [discriminate|].
  case_eq (set_field r k v); simpl.
  - intros r' _. apply IH.
  - intros e' H1 H2. injection H2 as <-. eapply set_field_raises; eauto.
Qed.

Lemma bind_kwargs_name (data : kwargs) :
  forall r r', bind_kwargs r data = Ok r' -> name r' = name r.
Proof.
  induction data as [|[k v] data IH]; simpl; intros r r'.
  - congruence.
  - case_eq (set_field r k v); simpl; [|discriminate].
    intros r1 H1 H2. rewrite (IH _ _ H2). eapply set_field_name; eauto.
Qed.

Lemma bind_kwargs_unexpected (data : kwargs) (key : string) (v : value) :
  In (key, v) data -> ~ In key field_names ->
  forall r, bind_kwargs r data = Raise TypeError.
Proof.
  intros Hin Hkey.
  induction data as [|[k w] data IH]; simpl in *; [tauto|]; intros r.
  case_eq (set_field r k w); simpl.
  - intros r' Hr'. destruct Hin as [Heq|Hin]; [|auto].
    injection Heq as -> ->.
    rewrite set_field_unexpected in Hr' by assumption. discriminate.
  - intros e He. f_equal. eapply set_field_raises; eauto.
Qed.

Lemma Role_init_name (n : string) (data : kwargs) (r : Role) :
  Role_init n data = Ok r -> name r = n.
Proof.
  unfold Role_init. intros H. now rewrite (bind_kwargs_name data _ _ H).
Qed.

Lemma build_roles_unexpected (items : dict kwargs) (n : string)
  (data : kwargs) (key : string) (v : value) :
  In (n, data) items -> In (key, v) data -> ~ In key field_names ->
  forall acc, build_roles items acc = Raise TypeError.
Proof.
  intros Hin Hkv Hkey.
  induction items as [|[n' data'] items IH]; simpl in *; [tauto|].
  intros acc. case_eq (Role_init n' data'); simpl.
  - intros r Hr. destruct Hin as [Heq|Hin]; [|auto].
    injection Heq as -> ->. unfold Role_init in Hr.
    rewrite (bind_kwargs_unexpected data key v Hkv Hkey) in Hr. discriminate.
  - intros e He. f_equal. unfold Role_init in He.
    eapply bind_kwargs_raises; eauto.
Qed.

(** What the comprehension leaves in the dict when the keys of the
    mapping are distinct: one role per entry, in order, each under its
    own name. *)
Lemma build_roles_keys (items : dict kwargs) :
  forall acc built,
    NoDup (dict_keys acc ++ dict_keys items) ->
    build_roles items acc = Ok built ->
    exists rs,
      built = acc ++ rs
      /\ dict_keys rs = dict_keys items
      /\ map name (dict_values rs) = dict_keys items
      /\ Forall2 (fun e r => Role_init (fst e) (snd e) = Ok r)
           items (dict_values rs).
Proof.
  induction items as [|[n data] items IH]; simpl; intros acc built Hnd H.
  - exists []. injection H as <-. rewrite app_nil_r. repeat split.
    constructor.
  - case_eq (Role_init n data); [|intros e He; rewrite He in H; discriminate].
    intros r Hr. rewrite Hr in H; simpl in H.
    assert (Hfresh : ~ In n (dict_keys acc)).
    { intros Hn. apply NoDup_remove_2 in Hnd. apply Hnd.
      apply in_or_app. now left. }
    rewrite (dict_set_fresh _ _ _ Hfresh) in H.
    apply IH in H.
    + destruct H as (rs & -> & Hk & Hv & Hall). exists ((n, r) :: rs).
      rewrite <- app_assoc. simpl. repeat split.
      * now rewrite Hk.
      * rewrite Hv. now rewrite (Role_init_name _ _ _ Hr).
      * constructor; assumption.
    + unfold dict_keys in *. rewrite map_app, <- app_assoc. exact Hnd.
Qed.

(** ** The owner scan *)

Lemma scan_owner_filter (rs : list Role) :
  forall owner,
    scan_owner rs owner =
    match owner, filter is_owner rs with
    | _, [] => Ok owner
    | None, [r] => Ok (Some r)
    | _, _ => Raise AssertionError
    end.
Proof.
  induction rs as [|r rs IH]; intros owner; simpl.
  - now destruct owner.
  - destruct (is_owner r) eqn:E.
    + destruct owner as [o|]; trivial.
      rewrite IH. now destruct (filter is_owner rs).
    + apply IH.
Qed.

(** ** Construction *)

(** C2. When the roles are built and none of them, or more than one of
    them, is an owner role, [__init__] raises [AssertionError]: there
    is no registry. *)
Theorem init_asserts_one_owner (defs : dict kwargs) (built : dict Role) :
  build_roles defs [] = Ok built ->
  count_owners (dict_values built) = 0
    \/ 2 <= count_owners (dict_values built) ->
  RoleRegistry_init defs = Raise AssertionError
  /\ forall reg, RoleRegistry_init defs <> Ok reg.
Proof.
  intros Hb Hc.
  assert (H : RoleRegistry_init defs = Raise AssertionError).
  { unfold RoleRegistry_init. rewrite Hb. simpl.
    rewrite scan_owner_filter. unfold count_owners in Hc.
    destruct (filter is_owner (dict_values built)) as [|a [|b l]];
      simpl in *; trivial; lia. }
  split; [exact H | intros reg; rewrite H; discriminate].
Qed.

Lemma init_asserts_one_owner_witness :
  (build_roles [("reader", []); ("curator", [])] []
     = Ok [("reader", mkRole "reader" "" "" [] false);
           ("curator", mkRole "curator" "" "" [] false)]
   /\ RoleRegistry_init [("reader", []); ("curator", [])]
      = Raise AssertionError)
  /\ (2 <= count_owners
             [mkRole "a" "" "" [] true; mkRole "b" "" "" [] true]
      /\ RoleRegistry_init
           [("a", [("is_owner", VBool true)]);
            ("b", [("is_owner", VBool true)])]
         = Raise AssertionError).
Proof.
  split; split.
  - reflexivity.
  - apply (init_asserts_one_owner
             [("reader", []); ("curator", [])]
             [("reader", mkRole "reader" "" "" [] false);
              ("curator", mkRole "curator" "" "" [] false)]).
    + reflexivity.
    + left. reflexivity.
  - unfold count_owners. simpl. lia.
  - apply (init_asserts_one_owner
             [("a", [("is_owner", VBool true)]);
              ("b", [("is_owner", VBool true)])]
             [("a", mkRole "a" "" "" [] true);
              ("b", mkRole "b" "" "" [] true)]).
    + reflexivity.
    + right. unfold count_owners. simpl. lia.
Defined.

Lemma init_inversion (defs : dict kwargs) (reg : RoleRegistry) :
  RoleRegistry_init defs = Ok reg ->
  exists r,
    build_roles defs [] = Ok (_roles reg)
    /\ scan_owner (roles reg) None = Ok (Some r)
    /\ _owner reg = Some r.
Proof.
  unfold RoleRegistry_init, roles.
  destruct (build_roles defs []) as [built|e]; simpl; [|discriminate].
  destruct (scan_owner (dict_values built) None) as [[r|]|e] eqn:Hs;
    simpl; try discriminate.
  intros H. injection H as <-. simpl. eauto.
Qed.

(** C7. On a registry built from a mapping (whose keys, being those of
    a dict, are distinct), [roles] lists the roles in the order of the
    mapping's entries: the names of the roles are the keys, in order,
    and the role at each place is the one built from the entry at that
    place. [roles] is a function of the registry, so every iteration
    gives this same sequence. *)
Theorem roles_in_insertion_order (defs : dict kwargs) (reg : RoleRegistry) :
  NoDup (dict_keys defs) ->
  RoleRegistry_init defs = Ok reg ->
  map name (roles reg) = dict_keys defs
  /\ dict_keys (_roles reg) = dict_keys defs
  /\ Forall2 (fun e r => Role_init (fst e) (snd e) = Ok r) defs (roles reg).
Proof.
  intros Hnd Hinit.
  destruct (init_inversion _ _ Hinit) as (r & Hb & _ & _).
  apply build_roles_keys in Hb; [|exact Hnd].
  destruct Hb as (rs & Hrs & Hk & Hv & Hall).
  unfold roles. rewrite Hrs. simpl. auto.
Qed.

Lemma roles_in_insertion_order_witness :
  NoDup (dict_keys scenario)
  /\ RoleRegistry_init scenario
     = Ok (mkRoleRegistry
             [("reader", scenario_reader); ("curator", scenario_curator);
              ("manager", scenario_manager); ("owner", scenario_owner)]
             (Some scenario_owner))
  /\ map name [scenario_reader; scenario_curator;
               scenario_manager; scenario_owner]
     = ["reader"; "curator"; "manager"; "owner"].
Proof.
  assert (Hnd : NoDup (dict_keys scenario)).
  { simpl. repeat constructor; simpl; intuition discriminate. }
  split; [exact Hnd|]. split; [reflexivity|].
  refine (proj1 (roles_in_insertion_order scenario
           (mkRoleRegistry
              [("reader", scenario_reader); ("curator", scenario_curator);
               ("manager", scenario_manager); ("owner", scenario_owner)]
              (Some scenario_owner)) Hnd _)).
  reflexivity.
Defined.

(** C10. The keys of a record go to the [Role] constructor as they
    are: one key that is not [title], [description],
    [can_manage_roles] or [is_owner], in any record of the mapping,
    and [__init__] raises [TypeError]; there is no registry. *)
Theorem init_rejects_unexpected_key (defs : dict kwargs) (n : string)
  (data : kwargs) (key : string) (v : value) :
  In (n, data) defs ->
  In (key, v) data ->
  ~ In key field_names ->
  RoleRegistry_init defs = Raise TypeError
  /\ forall reg, RoleRegistry_init defs <> Ok reg.
Proof.
  intros Hin Hkv Hkey.
  assert (H : RoleRegistry_init defs = Raise TypeError).
  { unfold RoleRegistry_init.
    now rewrite (build_roles_unexpected defs n data key v Hin Hkv Hkey). }
  split; [exact H | intros reg; rewrite H; discriminate].
Qed.

(** The record [{can_manage: [reader]}] of the scenario as the design
    document writes it is rejected. *)
Lemma init_rejects_unexpected_key_witness :
  In ("curator", [("can_manage", VList ["reader"])]) scenario_can_manage
  /\ ~ In "can_manage" field_names
  /\ RoleRegistry_init scenario_can_manage = Raise TypeError.
Proof.
  assert (Hin : In ("curator", [("can_manage", VList ["reader"])])
                   scenario_can_manage).
  { simpl. auto. }
  assert (Hkey : ~ In "can_manage" field_names).
  { simpl. intuition discriminate. }
  split; [exact Hin|]. split; [exact Hkey|].
  apply (init_rejects_unexpected_key scenario_can_manage "curator"
           [("can_manage", VList ["reader"])] "can_manage"
           (VList ["reader"]) Hin).
  - simpl. auto.
  - exact Hkey.
Defined.

(** C8. The scenario: the registry is built, its owner role is
    [owner], the managers of [reader] are curator, manager, owner in
    that order, the only manager of [owner] and of [manager] is owner,
    and looking up [nonexistent] raises [KeyError]. *)
Theorem scenario_queries :
  exists reg,
    RoleRegistry_init scenario = Ok reg
    /\ owner_role reg = Some scenario_owner
    /\ name scenario_owner = "owner"
    /\ manager_roles reg "reader"
       = [scenario_curator; scenario_manager; scenario_owner]
    /\ manager_roles reg "owner" = [scenario_owner]
    /\ manager_roles reg "manager" = [scenario_owner]
    /\ getitem reg "nonexistent" = Raise KeyError.
Proof.
  eexists. split; [reflexivity|].
  vm_compute. repeat split.
Qed.

(** ** Mappings whose records have the declared fields *)

Lemma Role_init_kwargs_of (n : string) (d : role_definition) :
  Role_init n (kwargs_of d) = Ok (built_role n d).
Proof.
  destruct d as [[t|] [s|] [l|] [b|]]; reflexivity.
Qed.

Lemma dict_keys_built_roles (defs : dict role_definition) :
  dict_keys (built_roles defs) = dict_keys defs.
Proof.
  unfold built_roles, dict_keys. rewrite map_map. reflexivity.
Qed.

Lemma build_roles_definitions_of (defs : dict role_definition) :
  forall acc,
    NoDup (dict_keys acc ++ dict_keys defs) ->
    build_roles (definitions_of defs) acc = Ok (acc ++ built_roles defs).
Proof.
  induction defs as [|[n d] defs IH]; simpl; intros acc Hnd.
  - now rewrite app_nil_r.
  - rewrite Role_init_kwargs_of. simpl.
    rewrite dict_set_fresh.
    + rewrite IH.
      * now rewrite <- app_assoc.
      * unfold dict_keys in *. rewrite map_app, <- app_assoc. exact Hnd.
    + intros Hn. apply NoDup_remove_2 in Hnd. apply Hnd.
      apply in_or_app. now left.
Qed.

Lemma owners_of_built_roles (defs : dict role_definition) :
  filter is_owner (dict_values (built_roles defs))
  = dict_values (built_roles (owner_entries defs)).
Proof.
  induction defs as [|[n d] defs IH]; [reflexivity|].
  unfold owner_entries, built_roles, dict_values in *. simpl.
  unfold def_owner at 1.
  destruct (def_is_owner d) as [[|]|]; simpl; now rewrite IH.
Qed.

Lemma dict_get_nodup {V : Type} (d : dict V) (key : string) (v : V) :
  NoDup (dict_keys d) -> In (key, v) d -> dict_get d key = Some v.
Proof.
  induction d as [|[k w] d IH]; simpl; intros Hnd Hin; [tauto|].
  inversion Hnd as [|? ? Hk Hd]; subst.
  destruct Hin as [Heq|Hin].
  - injection Heq as -> ->. now rewrite String.eqb_refl.
  - split_key k key; [|auto].
    exfalso. apply Hk. change key with (fst (key, v)).
    now apply in_map.
Qed.

(** A registry holds an owner role: [_owner] was set by the scan. *)
Lemma owner_role_present (defs : dict kwargs) (reg : RoleRegistry) :
  RoleRegistry_init defs = Ok reg -> exists r, owner_role reg = Some r.
Proof.
  intros H. destruct (init_inversion _ _ H) as (r & _ & _ & Ho).
  exists r. exact Ho.
Qed.

Lemma init_definitions_of (defs : dict role_definition) (n : string)
  (d : role_definition) :
  NoDup (dict_keys defs) ->
  owner_entries defs = [(n, d)] ->
  RoleRegistry_init (definitions_of defs)
  = Ok (mkRoleRegistry (built_roles defs) (Some (built_role n d))).
Proof.
  intros Hnd Hone. unfold RoleRegistry_init.
  rewrite build_roles_definitions_of by exact Hnd. simpl.
  rewrite scan_owner_filter, owners_of_built_roles, Hone. reflexivity.
Qed.

(** C3. A mapping with distinct keys in which the entries saying
    [is_owner: True] are one entry, [(n, d)]: the registry is built and
    [owner_role] is the role built from that entry. And whatever
    mapping a registry was built from, [owner_role] is a role. *)
Theorem init_one_owner (defs : dict role_definition) (n : string)
  (d : role_definition) :
  NoDup (dict_keys defs) ->
  owner_entries defs = [(n, d)] ->
  (exists reg r,
      RoleRegistry_init (definitions_of defs) = Ok reg
      /\ Role_init n (kwargs_of d) = Ok r
      /\ owner_role reg = Some r)
  /\ (forall raw reg,
        RoleRegistry_init raw = Ok reg -> exists r, owner_role reg = Some r).
Proof.
  intros Hnd Hone. split.
  - exists (mkRoleRegistry (built_roles defs) (Some (built_role n d))).
    exists (built_role n d).
    split; [now apply init_definitions_of|].
    split; [apply Role_init_kwargs_of | reflexivity].
  - exact owner_role_present.
Qed.

Lemma init_one_owner_witness :
  NoDup (dict_keys reader_and_owner)
  /\ owner_entries reader_and_owner
     = [("owner",
         mkDefinition (Some "Owner") (Some "Can manage everything")
           (Some ["reader"; "owner"]) (Some true))]
  /\ exists reg r,
       RoleRegistry_init (definitions_of reader_and_owner) = Ok reg
       /\ Role_init "owner"
            (kwargs_of
               (mkDefinition (Some "Owner") (Some "Can manage everything")
                  (Some ["reader"; "owner"]) (Some true))) = Ok r
       /\ owner_role reg = Some r.
Proof.
  assert (Hnd : NoDup (dict_keys reader_and_owner)).
  { simpl. repeat constructor; simpl; intuition discriminate. }
  split; [exact Hnd|]. split; [reflexivity|].
  apply (init_one_owner reader_and_owner "owner"
           (mkDefinition (Some "Owner") (Some "Can manage everything")
              (Some ["reader"; "owner"]) (Some true)) Hnd).
  reflexivity.
Defined.

(** C9. Nothing in [__init__] looks at the names inside
    [can_manage_roles]. For a mapping with distinct keys and one owner
    entry the registry is built whatever names the records list, among
    the keys of the mapping or not; each role keeps the list of its
    record as it is, and [can_manage] is true on every name in it. *)
Theorem init_keeps_unknown_names (defs : dict role_definition) (n : string)
  (d : role_definition) :
  NoDup (dict_keys defs) ->
  owner_entries defs = [(n, d)] ->
  exists reg,
    RoleRegistry_init (definitions_of defs) = Ok reg
    /\ forall n' d' m,
         In (n', d') defs ->
         In m (def_managed d') ->
         exists r,
           getitem reg n' = Ok r
           /\ can_manage_roles r = def_managed d'
           /\ can_manage r m = true.
Proof.
  intros Hnd Hone.
  exists (mkRoleRegistry (built_roles defs) (Some (built_role n d))).
  split; [now apply init_definitions_of|].
  intros n' d' m Hin Hm. exists (built_role n' d').
  unfold getitem; simpl.
  rewrite (dict_get_nodup (built_roles defs) n' (built_role n' d')).
  - split; [reflexivity|]. split; [reflexivity|].
    unfold can_manage. now apply list_contains_In.
  - now rewrite dict_keys_built_roles.
  - unfold built_roles.
    change (n', built_role n' d')
      with ((fun e => (fst e, built_role (fst e) (snd e))) (n', d')).
    now apply in_map.
Qed.

Lemma init_keeps_unknown_names_witness :
  NoDup (dict_keys dangling)
  /\ owner_entries dangling
     = [("owner",
         mkDefinition None None (Some ["reader"; "ghost"]) (Some true))]
  /\ ~ In "ghost" (dict_keys dangling)
  /\ exists reg,
       RoleRegistry_init (definitions_of dangling) = Ok reg
       /\ forall n' d' m,
            In (n', d') dangling ->
            In m (def_managed d') ->
            exists r,
              getitem reg n' = Ok r
              /\ can_manage_roles r = def_managed d'
              /\ can_manage r m = true.
Proof.
  assert (Hnd : NoDup (dict_keys dangling)).
  { simpl. repeat constructor; simpl; intuition discriminate. }
  split; [exact Hnd|]. split; [reflexivity|].
  split; [simpl; intuition discriminate|].
  apply (init_keeps_unknown_names dangling "owner"
           (mkDefinition None None (Some ["reader"; "ghost"]) (Some true))
           Hnd).
  reflexivity.
Defined.

(** * Further properties of the registry *)

(** ** What the comprehension keeps *)

Lemma dict_set_keys_in {V : Type} (d : dict V) (key : string) (v : V)
  (k : string) :
  In k (dict_keys (dict_set d key v)) <-> k = key \/ In k (dict_keys d).
Proof.
  induction d as [|[k' w] d IH]; simpl.
  - intuition.
  - split_key k' key; simpl; [intuition|].
    rewrite IH. tauto.
Qed.

Lemma dict_set_nodup {V : Type} (d : dict V) (key : string) (v : V) :
  NoDup (dict_keys d) -> NoDup (dict_keys (dict_set d key v)).
Proof.
  induction d as [|[k w] d IH]; simpl; intros Hnd.
  - constructor; [tauto | constructor].
  - inversion Hnd as [|? ? Hk Hd]; subst.
    split_key k key; simpl; [exact Hnd|].
    constructor; [|auto].
    rewrite dict_set_keys_in. intros [Heq|Hin]; [congruence | tauto].
Qed.

Lemma dict_set_in {V : Type} (d : dict V) (key : string) (v : V)
  (k : string) (w : V) :
  In (k, w) (dict_set d key v) -> (k = key /\ w = v) \/ In (k, w) d.
Proof.
  induction d as [|[k' w'] d IH]; simpl.
  - intros [H|[]]. injection H as <- <-. auto.
  - split_key k' key; simpl.
    + intros [H|H]; [injection H as <- <-; auto | auto].
    + intros [H|H]; [auto | apply IH in H; tauto].
Qed.

Lemma build_roles_invariants (items : dict kwargs) :
  forall acc built,
    build_roles items acc = Ok built ->
    (NoDup (dict_keys acc) -> NoDup (dict_keys built))
    /\ (keyed_by_name acc -> keyed_by_name built)
    /\ (forall k,
          In k (dict_keys built)
          <-> In k (dict_keys acc) \/ In k (dict_keys items)).
Proof.
  induction items as [|[n data] items IH]; simpl; intros acc built H.
  - injection H as <-. intuition.
  - destruct (Role_init n data) as [r|e] eqn:Hr; simpl in H; [|discriminate].
    destruct (IH _ _ H) as (Hnd & Hkey & Hin). repeat split.
    + intros Hacc. apply Hnd. now apply dict_set_nodup.
    + intros Hacc. apply Hkey. intros k r' Hk.
      apply dict_set_in in Hk. destruct Hk as [[-> ->]|Hk]; [|auto].
      exact (Role_init_name _ _ _ Hr).
    + rewrite Hin, dict_set_keys_in. intuition.
    + rewrite Hin, dict_set_keys_in. intuition.
Qed.

Lemma init_roles_invariants (defs : dict kwargs) (reg : RoleRegistry) :
  RoleRegistry_init defs = Ok reg ->
  NoDup (dict_keys (_roles reg))
  /\ keyed_by_name (_roles reg)
  /\ (forall k, In k (dict_keys (_roles reg)) <-> In k (dict_keys defs)).
Proof.
  intros H. destruct (init_inversion _ _ H) as (r & Hb & _ & _).
  destruct (build_roles_invariants _ _ _ Hb) as (Hnd & Hkey & Hin).
  repeat split.
  - apply Hnd. constructor.
  - apply Hkey. intros k r' [].
  - intros Hk. apply Hin in Hk. simpl in Hk. tauto.
  - intros Hk. apply Hin. now right.
Qed.

Lemma in_dict_values {V : Type} (d : dict V) (v : V) :
  In v (dict_values d) <-> exists k, In (k, v) d.
Proof.
  unfold dict_values. rewrite in_map_iff. split.
  - intros [[k w] [Hw Hin]]. simpl in Hw. subst w. eauto.
  - intros [k Hin]. exists (k, v). auto.
Qed.

Lemma init_lookup_by_name (defs : dict kwargs) (reg : RoleRegistry)
  (r : Role) :
  RoleRegistry_init defs = Ok reg ->
  In r (roles reg) ->
  dict_get (_roles reg) (name r) = Some r.
Proof.
  intros H Hin.
  destruct (init_roles_invariants _ _ H) as (Hnd & Hkey & _).
  apply in_dict_values in Hin. destruct Hin as [k Hin].
  apply dict_get_nodup; [exact Hnd|].
  now rewrite (Hkey _ _ Hin).
Qed.

Lemma scan_owner_some (rs : list Role) (r : Role) :
  scan_owner rs None = Ok (Some r) -> filter is_owner rs = [r].
Proof.
  rewrite scan_owner_filter.
  destruct (filter is_owner rs) as [|a [|b l]]; congruence.
Qed.

Lemma scan_owner_raises (rs : list Role) (owner : option Role) (e : exn) :
  scan_owner rs owner = Raise e -> e = AssertionError.
Proof.
  rewrite scan_owner_filter.
  destruct owner, (filter is_owner rs) as [|a [|b l]]; congruence.
Qed.

Lemma keyed_by_name_names (d : dict Role) :
  keyed_by_name d -> map name (dict_values d) = dict_keys d.
Proof.
  induction d as [|[k r] d IH]; simpl; intros H; trivial.
  rewrite (H k r) by now left.
  f_equal. apply IH. intros k' r' Hin. apply H. now right.
Qed.

(** ** Lookup, iteration and the owner *)

(** X1. In a registry that [__init__] built, the role that
    [registry[key]] returns has [key] as its name. *)
Theorem getitem_name (defs : dict kwargs) (reg : RoleRegistry)
  (key : string) (r : Role) :
  RoleRegistry_init defs = Ok reg ->
  getitem reg key = Ok r ->
  name r = key.
Proof.
  intros H Hget.
  destruct (init_roles_invariants _ _ H) as (_ & Hkey & _).
  apply Hkey. apply dict_get_in. unfold getitem in Hget.
  destruct (dict_get (_roles reg) key); congruence.
Qed.

Lemma getitem_name_witness :
  RoleRegistry_init scenario = Ok scenario_registry
  /\ getitem scenario_registry "curator" = Ok scenario_curator
  /\ name scenario_curator = "curator".
Proof.
  split; [reflexivity|]. split; [reflexivity|].
  apply (getitem_name scenario scenario_registry "curator" scenario_curator);
    reflexivity.
Defined.

(** X2. In a registry that [__init__] built, [owner_role] is a role
    with [is_owner] set, it is the only such role among [roles], and
    looking up its name returns it. *)
Theorem owner_role_unique (defs : dict kwargs) (reg : RoleRegistry) :
  RoleRegistry_init defs = Ok reg ->
  exists r,
    owner_role reg = Some r
    /\ is_owner r = true
    /\ filter is_owner (roles reg) = [r]
    /\ getitem reg (name r) = Ok r.
Proof.
  intros H. destruct (init_inversion _ _ H) as (r & _ & Hs & Ho).
  apply scan_owner_some in Hs.
  assert (Hin : In r (filter is_owner (roles reg))) by (rewrite Hs; now left).
  apply filter_In in Hin. destruct Hin as [Hin Hr].
  exists r. repeat split; trivial.
  unfold getitem. now rewrite (init_lookup_by_name _ _ _ H Hin).
Qed.

Lemma owner_role_unique_witness :
  RoleRegistry_init scenario = Ok scenario_registry
  /\ exists r,
       owner_role scenario_registry = Some r
       /\ is_owner r = true
       /\ filter is_owner (roles scenario_registry) = [r]
       /\ getitem scenario_registry (name r) = Ok r.
Proof.
  split; [reflexivity|].
  apply (owner_role_unique scenario scenario_registry). reflexivity.
Defined.

(** X3. In a registry that [__init__] built, the roles that iterating
    the registry yields are the roles that lookup finds under their
    own name, and the name of each is [in] the registry. *)
Theorem iter_getitem (defs : dict kwargs) (reg : RoleRegistry) (r : Role) :
  RoleRegistry_init defs = Ok reg ->
  (In r (iter reg) <-> getitem reg (name r) = Ok r)
  /\ (In r (iter reg) -> contains reg (name r) = true).
Proof.
  intros H. unfold iter, getitem, contains.
  assert (Hfound : In r (roles reg) ->
                   dict_get (_roles reg) (name r) = Some r)
    by apply (init_lookup_by_name _ _ _ H).
  repeat split.
  - intros Hin. now rewrite Hfound.
  - intros Hget. apply in_dict_values. exists (name r).
    apply dict_get_in. destruct (dict_get (_roles reg) (name r)); congruence.
  - intros Hin. apply dict_contains_get. eauto.
Qed.

Lemma iter_getitem_witness :
  RoleRegistry_init scenario = Ok scenario_registry
  /\ (In scenario_manager (iter scenario_registry)
      <-> getitem scenario_registry (name scenario_manager)
          = Ok scenario_manager)
  /\ (In scenario_manager (iter scenario_registry)
      -> contains scenario_registry (name scenario_manager) = true).
Proof.
  split; [reflexivity|].
  apply (iter_getitem scenario scenario_registry scenario_manager).
  reflexivity.
Defined.

(** X4. In a registry that [__init__] built from a mapping, a name is
    [in] the registry exactly when it is a key of the mapping. *)
Theorem contains_iff_key (defs : dict kwargs) (reg : RoleRegistry)
  (n : string) :
  RoleRegistry_init defs = Ok reg ->
  (contains reg n = true <-> In n (dict_keys defs)).
Proof.
  intros H. destruct (init_roles_invariants _ _ H) as (_ & _ & Hin).
  unfold contains. now rewrite dict_contains_keys, Hin.
Qed.

Lemma contains_iff_key_witness :
  RoleRegistry_init scenario = Ok scenario_registry
  /\ (contains scenario_registry "nonexistent" = true
      <-> In "nonexistent" (dict_keys scenario)).
Proof.
  split; [reflexivity|].
  apply (contains_iff_key scenario scenario_registry "nonexistent").
  reflexivity.
Defined.

(** X5. In a registry that [__init__] built, no two of the roles that
    iteration yields have the same name. *)
Theorem iter_names_distinct (defs : dict kwargs) (reg : RoleRegistry) :
  RoleRegistry_init defs = Ok reg ->
  NoDup (map name (iter reg)).
Proof.
  intros H. destruct (init_roles_invariants _ _ H) as (Hnd & Hkey & _).
  unfold iter, roles. now rewrite keyed_by_name_names.
Qed.

Lemma iter_names_distinct_witness :
  RoleRegistry_init scenario = Ok scenario_registry
  /\ NoDup (map name (iter scenario_registry)).
Proof.
  split; [reflexivity|].
  apply (iter_names_distinct scenario scenario_registry). reflexivity.
Defined.

(** ** Managers *)

Lemma filter_nil_iff {A : Type} (f : A -> bool) (l : list A) :
  filter f l = [] <-> forall a, In a l -> f a = false.
Proof.
  induction l as [|x l IH]; simpl.
  - split; [intros _ a [] | trivial].
  - destruct (f x) eqn:E.
    + split; [discriminate|]. intros H. rewrite (H x) in E by now left.
      discriminate.
    + rewrite IH. split.
      * intros H a [<-|Hin]; auto.
      * intros H a Hin. apply H. now right.
Qed.

(** X6. [manager_roles] returns the empty list exactly when no role
    of the registry lists the queried name: a name nobody manages,
    registered or not, gives [[]] and no error. *)
Theorem manager_roles_nil (reg : RoleRegistry) (n : string) :
  manager_roles reg n = []
  <-> forall r, In r (roles reg) -> ~ In n (can_manage_roles r).
Proof.
  unfold manager_roles. rewrite manager_roles_loop_filter. simpl.
  rewrite filter_nil_iff. split; intros H r Hin.
  - intros Hn. apply list_contains_In in Hn.
    specialize (H r Hin). unfold can_manage in H. congruence.
  - unfold can_manage.
    destruct (list_contains n (can_manage_roles r)) eqn:E; trivial.
    apply list_contains_In in E. now apply H in E.
Qed.

(** X7. In a registry that [__init__] built, every role that
    [manager_roles] returns for a name lists that name, is one of the
    registry's roles, and is what lookup returns for its own name. *)
Theorem manager_roles_getitem (defs : dict kwargs) (reg : RoleRegistry)
  (n : string) (r : Role) :
  RoleRegistry_init defs = Ok reg ->
  In r (manager_roles reg n) ->
  In n (can_manage_roles r)
  /\ In r (roles reg)
  /\ getitem reg (name r) = Ok r.
Proof.
  intros H Hin. unfold manager_roles in Hin.
  rewrite manager_roles_loop_filter in Hin. simpl in Hin.
  apply filter_In in Hin. destruct Hin as [Hin Hcan].
  repeat split; trivial.
  - now apply list_contains_In.
  - unfold getitem. now rewrite (init_lookup_by_name _ _ _ H Hin).
Qed.

Lemma manager_roles_getitem_witness :
  RoleRegistry_init scenario = Ok scenario_registry
  /\ In scenario_manager (manager_roles scenario_registry "curator")
  /\ In "curator" (can_manage_roles scenario_manager)
  /\ In scenario_manager (roles scenario_registry)
  /\ getitem scenario_registry (name scenario_manager) = Ok scenario_manager.
Proof.
  assert (Hin : In scenario_manager
                   (manager_roles scenario_registry "curator")).
  { vm_compute. auto. }
  split; [reflexivity|]. split; [exact Hin|].
  apply (manager_roles_getitem scenario scenario_registry "curator"
           scenario_manager); [reflexivity | exact Hin].
Defined.

(** ** When construction succeeds and how it fails *)

(** X8. For a mapping with distinct keys whose records have the
    declared fields, [__init__] returns a registry exactly when one
    entry says [is_owner: True]; with none or several it raises
    [AssertionError]. *)
Theorem init_ok_iff_one_owner (defs : dict role_definition) :
  NoDup (dict_keys defs) ->
  ((exists reg, RoleRegistry_init (definitions_of defs) = Ok reg)
   <-> length (owner_entries defs) = 1)
  /\ (length (owner_entries defs) <> 1 ->
      RoleRegistry_init (definitions_of defs) = Raise AssertionError).
Proof.
  intros Hnd. unfold RoleRegistry_init.
  rewrite build_roles_definitions_of by exact Hnd. simpl.
  rewrite scan_owner_filter, owners_of_built_roles.
  destruct (owner_entries defs) as [|e [|e' l]]; simpl.
  - split; [split; [intros [reg H]; discriminate | discriminate] | trivial].
  - split; [split; [trivial | eauto] | congruence].
  - split; [split; [intros [reg H]; discriminate | discriminate] | trivial].
Qed.

Lemma init_ok_iff_one_owner_witness :
  NoDup (dict_keys reader_and_owner)
  /\ ((exists reg,
         RoleRegistry_init (definitions_of reader_and_owner) = Ok reg)
      <-> length (owner_entries reader_and_owner) = 1)
  /\ (length (owner_entries reader_and_owner) <> 1 ->
      RoleRegistry_init (definitions_of reader_and_owner)
      = Raise AssertionError).
Proof.
  assert (Hnd : NoDup (dict_keys reader_and_owner)).
  { simpl. repeat constructor; simpl; intuition discriminate. }
  split; [exact Hnd|].
  apply (init_ok_iff_one_owner reader_and_owner Hnd).
Defined.

Lemma Role_init_raises (n : string) (data : kwargs) (e : exn) :
  Role_init n data = Raise e -> e = TypeError.
Proof.
  unfold Role_init. apply bind_kwargs_raises.
Qed.

Lemma build_roles_raise_iff (items : dict kwargs) :
  forall acc e,
    build_roles items acc = Raise e
    <-> e = TypeError
        /\ exists n data,
             In (n, data) items /\ Role_init n data = Raise TypeError.
Proof.
  induction items as [|[n data] items IH]; simpl; intros acc e.
  - split; [discriminate | intros [_ (n & data & [] & _)]].
  - destruct (Role_init n data) as [r|e'] eqn:Hr; simpl.
    + rewrite IH. split.
      * intros [-> (n' & data' & Hin & Hraise)]. split; [reflexivity|].
        exists n', data'. auto.
      * intros [-> (n' & data' & [Heq|Hin] & Hraise)].
        -- injection Heq as <- <-. congruence.
        -- split; [reflexivity|]. exists n', data'. auto.
    + pose proof (Role_init_raises _ _ _ Hr) as ->. split.
      * intros H. injection H as <-. split; [reflexivity|].
        exists n, data. auto.
      * intros [-> _]. reflexivity.
Qed.

(** X9. [__init__] raises [TypeError] exactly when the [Role] call
    fails for some entry of the mapping, whatever the owner flags of
    the other entries say; it raises no [KeyError]. *)
Theorem init_type_error_iff (defs : dict kwargs) :
  (RoleRegistry_init defs = Raise TypeError
   <-> exists n data,
         In (n, data) defs /\ Role_init n data = Raise TypeError)
  /\ RoleRegistry_init defs <> Raise KeyError.
Proof.
  unfold RoleRegistry_init.
  pose proof (build_roles_raise_iff defs [] TypeError) as Hty.
  pose proof (build_roles_raise_iff defs [] KeyError) as Hkey.
  destruct (build_roles defs []) as [built|e] eqn:Hb; simpl.
  - assert (Hscan : forall e,
               (owner <- scan_owner (dict_values built) None ;;
                match owner with
                | None => Raise AssertionError
                | Some _ => Ok (mkRoleRegistry built owner)
                end) = Raise e -> e = AssertionError).
    { intros e.
      destruct (scan_owner (dict_values built) None) as [[o|]|e'] eqn:Hs;
        simpl; try congruence.
      intros H. injection H as <-. eapply scan_owner_raises; eauto. }
    split.
    + split.
      * intros H. apply Hscan in H. discriminate.
      * intros H. assert (Ok built = Raise TypeError) by (apply Hty; auto).
        discriminate.
    + intros H. apply Hscan in H. discriminate.
  - split.
    + split.
      * intros H. apply Hty. congruence.
      * intros H. f_equal. assert (Raise e = Raise TypeError :> outcome (dict Role))
          by (apply Hty; auto). congruence.
    + intros H. assert (e = KeyError) by congruence. subst e.
      assert (KeyError = TypeError) by (apply Hkey; reflexivity).
      discriminate.
Qed.

(** ** Equality and hash of roles *)

(** X10. Two roles compare equal exactly when they are the same in
    all five fields; roles that compare equal have the same hash, and
    roles of different names never compare equal. *)
Theorem Role_eq_hash (str_hash : string -> Z) (r1 r2 : Role) :
  (Role_eq r1 r2 = true <-> r1 = r2)
  /\ (Role_eq r1 r2 = true -> Role_hash str_hash r1 = Role_hash str_hash r2)
  /\ (name r1 <> name r2 -> Role_eq r1 r2 = false).
Proof.
  assert (Heq : Role_eq r1 r2 = true <-> r1 = r2).
  { destruct r1 as [n1 t1 d1 c1 o1], r2 as [n2 t2 d2 c2 o2].
    unfold Role_eq; simpl.
    rewrite !andb_true_iff, !String.eqb_eq, list_eqb_eq, Bool.eqb_true_iff.
    split.
    - intros ((((-> & ->) & ->) & ->) & ->). reflexivity.
    - intros H. injection H as -> -> -> -> ->. auto. }
  split; [exact Heq|]. split.
  - intros H. apply Heq in H. now subst.
  - intros Hn. apply not_true_is_false. intros E.
    apply Heq in E. now subst.
Qed.

(** ** The role a record gives *)

Lemma dict_get_absent {V : Type} (d : dict V) (key : string) :
  ~ In key (dict_keys d) -> dict_get d key = None.
Proof.
  induction d as [|[k w] d IH]; simpl; intros H; trivial.
  split_key k key; [tauto | apply IH; tauto].
Qed.

Lemma bind_kwargs_fields (data : kwargs) :
  forall r0 r,
    NoDup (dict_keys data) ->
    bind_kwargs r0 data = Ok r ->
    r = mkRole (name r0)
          (match dict_get data "title" with
           | Some (VStr s) => s
           | _ => title r0
           end)
          (match dict_get data "description" with
           | Some (VStr s) => s
           | _ => description r0
           end)
          (match dict_get data "can_manage_roles" with
           | Some (VList l) => l
           | _ => can_manage_roles r0
           end)
          (match dict_get data "is_owner" with
           | Some (VBool b) => b
           | _ => is_owner r0
           end).
Proof.
  induction data as [|[k v] data IH]; intros r0 r Hnd H.
  - simpl in *. injection H as <-. now destruct r0.
  - simpl in H. inversion Hnd as [|? ? Hk Hd]; subst.
    destruct (set_field r0 k v) as [r1|e] eqn:Hset; simpl in H;
      [|discriminate].
    rewrite (IH _ _ Hd H). clear IH H.
    unfold set_field in Hset.
    destruct (k =? "title") eqn:E1;
      [|destruct (k =? "description") eqn:E2;
        [|destruct (k =? "can_manage_roles") eqn:E3;
          [|destruct (k =? "is_owner") eqn:E4; [|discriminate]]]];
      destruct v; try discriminate; injection Hset as <-;
      match goal with
      | E : (k =? _) = true |- _ => apply String.eqb_eq in E; subst k
      end;
      simpl; rewrite (dict_get_absent _ _ Hk); reflexivity.
Qed.

(** X11. What [Role(name=name, **data)] returns for a record: the
    name is the one given, and each other field is the record's value
    under that key, or the dataclass default (empty string, empty
    list, false) when the record has no such key. *)
Theorem Role_init_fields (n : string) (data : kwargs) (r : Role) :
  NoDup (dict_keys data) ->
  Role_init n data = Ok r ->
  name r = n
  /\ title r = match dict_get data "title" with
               | Some (VStr s) => s
               | _ => ""
               end
  /\ description r = match dict_get data "description" with
                     | Some (VStr s) => s
                     | _ => ""
                     end
  /\ can_manage_roles r = match dict_get data "can_manage_roles" with
                          | Some (VList l) => l
                          | _ => []
                          end
  /\ is_owner r = match dict_get data "is_owner" with
                  | Some (VBool b) => b
                  | _ => false
                  end.
Proof.
  intros Hnd H. unfold Role_init in H.
  rewrite (bind_kwargs_fields _ _ _ Hnd H). simpl. auto.
Qed.

Lemma Role_init_fields_witness :
  NoDup (dict_keys [("is_owner", VBool true); ("title", VStr "Owner")])
  /\ Role_init "owner" [("is_owner", VBool true); ("title", VStr "Owner")]
     = Ok (mkRole "owner" "Owner" "" [] true)
  /\ name (mkRole "owner" "Owner" "" [] true) = "owner"
  /\ title (mkRole "owner" "Owner" "" [] true) = "Owner"
  /\ description (mkRole "owner" "Owner" "" [] true) = ""
  /\ can_manage_roles (mkRole "owner" "Owner" "" [] true) = []
  /\ is_owner (mkRole "owner" "Owner" "" [] true) = true.
Proof.
  assert (Hnd : NoDup (dict_keys [("is_owner", VBool true);
                                  ("title", VStr "Owner")])).
  { simpl. repeat constructor; simpl; intuition discriminate. }
  split; [exact Hnd|]. split; [reflexivity|].
  apply (Role_init_fields "owner"
           [("is_owner", VBool true); ("title", VStr "Owner")]
           (mkRole "owner" "Owner" "" [] true) Hnd).
  reflexivity.
Defined.

Ltac test_keys :=
  repeat match goal with
         | |- context [if ?k =? ?s then _ else _] =>
             let E := fresh "E" in destruct (k =? s) eqn:E
         end.

Lemma set_field_swap (r : Role) (k1 k2 : string) (v1 v2 : value)
  (K : Role -> outcome Role) :
  k1 <> k2 ->
  (r1 <- set_field r k1 v1 ;; r2 <- set_field r1 k2 v2 ;; K r2)
  = (r1 <- set_field r k2 v2 ;; r2 <- set_field r1 k1 v1 ;; K r2).
Proof.
  intros Hne. unfold set_field. test_keys;
    destruct v1, v2; simpl; try reflexivity;
    exfalso; apply Hne;
    repeat match goal with
           | H : (_ =? _) = true |- _ => apply String.eqb_eq in H
           end;
    congruence.
Qed.

Lemma bind_kwargs_permutation (data data' : kwargs) :
  Permutation data data' ->
  NoDup (dict_keys data) ->
  forall r, bind_kwargs r data = bind_kwargs r data'.
Proof.
  induction 1 as [|[k v] l l' Hp IH|[k1 v1] [k2 v2] l|l l' l'' Hp1 IH1 Hp2 IH2];
    intros Hnd r; simpl.
  - reflexivity.
  - inversion Hnd; subst.
    destruct (set_field r k v); simpl; auto.
  - apply set_field_swap.
    inversion Hnd as [|? ? Hk _]; subst. simpl in Hk. intros ->. tauto.
  - rewrite IH1 by exact Hnd. apply IH2.
    unfold dict_keys in *.
    eapply Permutation_NoDup; [|exact Hnd]. now apply Permutation_map.
Qed.

(** X12. The order in which a record lists its keys does not matter:
    two records with the same items, the keys distinct, give the same
    result of [Role(name=name, **data)], role or [TypeError]. *)
Theorem Role_init_key_order (n : string) (data data' : kwargs) :
  Permutation data data' ->
  NoDup (dict_keys data) ->
  Role_init n data = Role_init n data'.
Proof.
  intros Hp Hnd. unfold Role_init. now apply bind_kwargs_permutation.
Qed.

Lemma Role_init_key_order_witness :
  Permutation [("is_owner", VBool true); ("title", VStr "Owner")]
              [("title", VStr "Owner"); ("is_owner", VBool true)]
  /\ NoDup (dict_keys [("is_owner", VBool true); ("title", VStr "Owner")])
  /\ Role_init "owner" [("is_owner", VBool true); ("title", VStr "Owner")]
     = Role_init "owner" [("title", VStr "Owner"); ("is_owner", VBool true)].
Proof.
  assert (Hp : Permutation
                 [("is_owner", VBool true); ("title", VStr "Owner")]
                 [("title", VStr "Owner"); ("is_owner", VBool true)])
    by apply perm_swap.
  assert (Hnd : NoDup (dict_keys [("is_owner", VBool true);
                                  ("title", VStr "Owner")])).
  { simpl. repeat constructor; simpl; intuition discriminate. }
  split; [exact Hp|]. split; [exact Hnd|].
  apply (Role_init_key_order "owner" _ _ Hp Hnd).
Defined.
